(** * Mathematico: the game orchestrator of [src/game.py]

    A shallow embedding of the class [Game]: the deck, the move counter, the
    roster of players, the drawing of cards, the registration of players,
    the termination test, the textual snapshot and the main loop.

    Python integers are [Z]; Python lists are [list]; a raised exception is
    the [Raise] branch of [result]; the player objects live in a store
    indexed by object identity, so that one object registered twice is one
    object. *)

From Stdlib Require Import ZArith List Lia Bool String Ascii.
From Stdlib Require Import Permutation DecimalString.
From Equations Require Import Equations.
From Equations.Prop Require Import Logic.
Import ListNotations.
Open Scope Z_scope.

(** ** Exceptions *)

Inductive exn : Type :=
| ValueError (msg : string)
| IndexError
| AssertionError.

Inductive result (A : Type) : Type :=
| Ok (a : A)
| Raise (e : exn).
Arguments Ok {A} a.
Arguments Raise {A} e.

Definition bind {A B : Type} (m : result A) (k : A -> result B) : result B :=
  match m with
  | Ok a => k a
  | Raise e => Raise e
  end.

Notation "x <- m ;; k" := (bind m (fun x => k))
  (at level 61, m at next level, right associativity).

(** ** The Python built-ins the class uses *)

Module Py.

(** [len(l)] *)
Definition len {A : Type} (l : list A) : Z := Z.of_nat (List.length l).

(** [l[i]]: a negative index counts from the end; out of range raises. *)
Definition getitem {A : Type} (l : list A) (i : Z) : result A :=
  let j := if i <? 0 then i + len l else i in
  if (j <? 0) || (len l <=? j) then Raise IndexError
  else match nth_error l (Z.to_nat j) with
       | Some x => Ok x
       | None => Raise IndexError
       end.

(** [l[:k]]: a negative bound counts from the end; the bound is clipped. *)
Definition slice_to {A : Type} (l : list A) (k : Z) : list A :=
  let k' := if k <? 0 then Z.max 0 (k + len l) else k in
  firstn (Z.to_nat k') l.

(** [range(a, b)] *)
Definition range (a b : Z) : list Z :=
  map (fun i => a + Z.of_nat i) (seq 0 (Z.to_nat (b - a))).

(** [str(n)] for an integer. *)
Definition str (n : Z) : string := NilZero.string_of_int (Z.to_int n).

(** [", ".join(l)] *)
Fixpoint join (l : list string) : string :=
  match l with
  | [] => EmptyString
  | [s] => s
  | s :: rest => (s ++ ", " ++ join rest)%string
  end.

(** [repr(l)] for a list whose elements are shown by [show]. *)
Definition repr_list {A : Type} (show : A -> string) (l : list A) : string :=
  ("[" ++ join (map show l) ++ "]")%string.

Definition tab : string := String (ascii_of_nat 9) EmptyString.
Definition nl : string := String (ascii_of_nat 10) EmptyString.

End Py.

(** ** The collaborators: [player.py], [board.py], [eval.py]

    The orchestrator sees the players only through [move] and [get_board],
    the board only through its constant [SIZE], and the scores only through
    [evaluate].  A player object is a location of the store; its state is
    what [move] updates. *)

Definition loc : Type := nat.

Class Collaborators : Type := {
  SIZE : Z;
  PState : Type;
  Board : Type;
  Score : Type;
  move : PState -> Z -> PState;
  get_board : PState -> Board;
  evaluate : Board -> Score;
  repr_player : loc -> PState -> string
}.

(** ** The game object *)

Record Game : Type := mkGame {
  available_cards : list Z;
  moves_played : Z;
  players : list loc
}.

(** [self.available_cards = [i for i in range(1, 14) for _ in range(4)]] *)
Definition fresh_deck : list Z :=
  flat_map (fun i => map (fun _ => i) (Py.range 0 4)) (Py.range 1 14).

(** [__init__]: [shuffle] is the permutation that [rnd.shuffle] applies. *)
Definition __init__ (shuffle : list Z -> list Z) : Game :=
  mkGame (shuffle fresh_deck) 0 [].

Section GameClass.

Context {C : Collaborators}.

(** The store of player objects. *)
Definition heap : Type := loc -> PState.

Definition upd (h : heap) (p : loc) (s : PState) : heap :=
  fun q => if Nat.eqb q p then s else h q.

(** [finished] *)
Definition finished (g : Game) : bool :=
  (SIZE ^ 2 <=? moves_played g)
  || (Py.len (available_cards g) <=? moves_played g).

(** [take_next_card]: what the call returns or raises, and the game
    after it. *)
Definition take_next_card (g : Game) : result (option Z) * Game :=
  if finished g then (Ok None, g)
  else
    match Py.getitem (available_cards g) (moves_played g) with
    | Raise e => (Raise e, g)
    | Ok card =>
        (Ok (Some card),
         mkGame (available_cards g) (moves_played g + 1) (players g))
    end.

(** [add_player] *)
Definition add_player (player : loc) (g : Game) : result Z * Game :=
  if negb (moves_played g =? 0)
  then (Raise (ValueError "Game is in progress"), g)
  else
    let g' := mkGame (available_cards g) (moves_played g)
                     (players g ++ [player]) in
    (Ok (Py.len (players g') - 1), g').

(** [__str__]: reads the game and the players, changes nothing. *)
Definition __str__ (g : Game) (h : heap) : result string :=
  let r := ("Moves played:" ++ Py.tab
            ++ Py.repr_list Py.str
                 (Py.slice_to (available_cards g) (moves_played g))
            ++ Py.nl)%string in
  let r := (r ++ "Current card:" ++ Py.tab)%string in
  r <- (if finished g then Ok (r ++ "None")%string
        else
          c <- Py.getitem (available_cards g) (moves_played g) ;;
          Ok (r ++ Py.str c)%string) ;;
  let r := (r ++ Py.nl ++ "Move number:" ++ Py.tab
            ++ Py.str (moves_played g) ++ Py.nl)%string in
  let r := (r ++ "Players:" ++ Py.tab
            ++ Py.repr_list (fun p => repr_player p (h p)) (players g))%string in
  Ok r.

(** ** The world around one game: the player objects and the console *)

Record World : Type := mkWorld {
  game : Game;
  objects : heap;
  stdout : list string
}.

(** [for player in self.players: player.move(next_card)] *)
Definition broadcast (card : Z) (roster : list loc) (h : heap) : heap :=
  fold_left (fun h p => upd h p (move (h p) card)) roster h.

(** [if verbose: print(self)]: the console after it. *)
Definition trace (verbose : bool) (g : Game) (h : heap) (out : list string)
  : result (list string) :=
  if verbose then s <- __str__ g h ;; Ok (out ++ [s]) else Ok out.

(** The number of draws left before [finished] holds. *)
Definition remaining (g : Game) : nat :=
  Z.to_nat (Z.min (SIZE ^ 2) (Py.len (available_cards g)) - moves_played g).

(** The [while] loop of [start]: how it ends, and the world it leaves. *)
Equations? start_loop (verbose : bool) (w : World) : result unit * World
  by wf (remaining (game w)) lt :=
start_loop verbose w with inspect (finished (game w)) := {
  | exist _ true Hfin => (Ok tt, w)
  | exist _ false Hfin with inspect (take_next_card (game w)) := {
    | exist _ (Raise e, g') Htake =>
        (Raise e, mkWorld g' (objects w) (stdout w))
    | exist _ (Ok None, g') Htake =>
        (Raise AssertionError, mkWorld g' (objects w) (stdout w))
    | exist _ (Ok (Some next_card), g') Htake
        with trace verbose g' (objects w) (stdout w) := {
      | Raise e => (Raise e, mkWorld g' (objects w) (stdout w))
      | Ok out =>
          start_loop verbose
            (mkWorld g' (broadcast next_card (players g') (objects w)) out) } } }.
Proof.
  unfold take_next_card in Htake. rewrite Hfin in Htake.
  destruct (Py.getitem _ _); [|discriminate].
  injection Htake as _ <-.
  unfold finished in Hfin. apply orb_false_elim in Hfin as [H1 H2].
  apply Z.leb_gt in H1, H2. unfold remaining. simpl. lia.
Qed.

(** [start] *)
Definition start (verbose : bool) (w : World) : result (list Score) * World :=
  match start_loop verbose w with
  | (Raise e, w') => (Raise e, w')
  | (Ok _, w') =>
      (Ok (map (fun player => evaluate (get_board (objects w' player)))
               (players (game w'))),
       w')
  end.

(** ** Sequences of calls *)

(** [n] calls of [take_next_card] in a row: what each returned, and the
    game after the last. *)
Fixpoint draws (n : nat) (g : Game) : list (result (option Z)) * Game :=
  match n with
  | O => ([], g)
  | S n' =>
      let (r, g') := take_next_card g in
      let (rs, g'') := draws n' g' in
      (r :: rs, g'')
  end.

(** [add_player] on each of [ps] in turn. *)
Fixpoint add_players (ps : list loc) (g : Game) : list (result Z) * Game :=
  match ps with
  | [] => ([], g)
  | p :: ps' =>
      let (r, g') := add_player p g in
      let (rs, g'') := add_players ps' g' in
      (r :: rs, g'')
  end.

(** The methods of the class, as a caller invokes them. *)
Inductive op : Type :=
| Finished
| Str
| TakeNextCard
| AddPlayer (player : loc)
| Start (verbose : bool).

Definition raised {A : Type} (r : result A) : option exn :=
  match r with
  | Ok _ => None
  | Raise e => Some e
  end.

(** One call: the exception it raised, if any, and the world after it. *)
Definition call (o : op) (w : World) : option exn * World :=
  match o with
  | Finished => (None, w)
  | Str => (raised (__str__ (game w) (objects w)), w)
  | TakeNextCard =>
      let (r, g') := take_next_card (game w) in
      (raised r, mkWorld g' (objects w) (stdout w))
  | AddPlayer p =>
      let (r, g') := add_player p (game w) in
      (raised r, mkWorld g' (objects w) (stdout w))
  | Start verbose =>
      let (r, w') := start verbose w in
      (raised r, w')
  end.

Definition calls (os : list op) (w : World) : World :=
  fold_left (fun w o => snd (call o w)) os w.

(** The text of a snapshot with the given fields, in the layout that
    [__str__] prints. *)
Definition snapshot_text (played : list Z) (current : option Z)
    (number : Z) (roster : string) : string :=
  ("Moves played:" ++ Py.tab ++ Py.repr_list Py.str played ++ Py.nl
   ++ "Current card:" ++ Py.tab
   ++ match current with
      | None => "None"
      | Some c => Py.str c
      end
   ++ Py.nl ++ "Move number:" ++ Py.tab ++ Py.str number ++ Py.nl
   ++ "Players:" ++ Py.tab ++ roster)%string.

Definition roster_text (roster : list loc) (h : heap) : string :=
  Py.repr_list (fun p => repr_player p (h p)) roster.

(** The value of the counter at which [finished] starts to hold. *)
Definition threshold (g : Game) : Z :=
  Z.min (SIZE ^ 2) (Py.len (available_cards g)).

(** The game after one more card has been drawn. *)
Definition drawn_once (g : Game) : Game :=
  mkGame (available_cards g) (moves_played g + 1) (players g).

(** The cards that [start] has still to draw. *)
Definition upcoming (g : Game) : list Z :=
  firstn (remaining g) (skipn (Z.to_nat (moves_played g)) (available_cards g)).

(** The players after they have been sent [cards], one after the other. *)
Definition deliver (roster : list loc) (cards : list Z) (h : heap) : heap :=
  fold_left (fun h card => broadcast card roster h) cards h.

(** What [start] prints at its iteration number [k] (from 0), when it is
    called on game [g] with the players in state [h]. *)
Definition printed_at (g : Game) (h : heap) (k : nat) : string :=
  let i := (Z.to_nat (moves_played g) + k + 1)%nat in
  snapshot_text
    (firstn i (available_cards g))
    (if Z.of_nat i <? threshold g then nth_error (available_cards g) i
     else None)
    (Z.of_nat i)
    (roster_text (players g) (deliver (players g) (firstn k (upcoming g)) h)).

End GameClass.

(** ** A concrete set of collaborators

    A player that writes every card it receives into its board, a board
    of side 5, and the sum of the board as its score. *)

Definition demo : Collaborators := {|
  SIZE := 5;
  PState := list Z;
  Board := list Z;
  Score := Z;
  move := fun s c => (s ++ [c])%list;
  get_board := fun s => s;
  evaluate := fun b => fold_right Z.add 0 b;
  repr_player := fun p _ => ("P" ++ Py.str (Z.of_nat p))%string
|}.


(** A short deck, so that the deck runs out before the board is full,
    two registered players, no card drawn yet. *)
Definition demo_game : Game := mkGame [3; 1; 2] 0 [0%nat; 1%nat].

Definition demo_world : @World demo :=
  @mkWorld demo demo_game (fun _ => []) [].

(** The same game after its three cards have been drawn. *)
Definition demo_game_over : Game := mkGame [3; 1; 2] 3 [0%nat; 1%nat].

(** A new game on the full deck, shuffled by reversal, with two players. *)
Definition demo_full_world : @World demo :=
  @mkWorld demo (snd (add_players [0%nat; 1%nat] (__init__ (@rev Z))))
           (fun _ => []) [].

(** * Properties *)

Section Properties.

Context {C : Collaborators}.

(** *** Strings *)

Lemma append_assoc (a b c : string) :
  ((a ++ b) ++ c)%string = (a ++ (b ++ c))%string.
Proof. induction a as [|x a IH]; simpl; [reflexivity | now rewrite IH]. Qed.

(** *** Indexing *)

Lemma getitem_in_range {A : Type} (l : list A) (i : Z) :
  0 <= i < Py.len l ->
  exists x, nth_error l (Z.to_nat i) = Some x /\ Py.getitem l i = Ok x.
Proof.
  intros [H0 H1]. unfold Py.getitem, Py.len in *.
  destruct (Z.ltb_spec i 0) as [?|_]; [lia|].
  destruct (Z.ltb_spec i 0) as [?|_]; [lia|].
  destruct (Z.leb_spec (Z.of_nat (List.length l)) i) as [?|_]; [lia|].
  simpl. destruct (nth_error l (Z.to_nat i)) as [x|] eqn:E.
  - exists x. split; reflexivity.
  - apply nth_error_None in E. lia.
Qed.

Lemma slice_to_nonneg {A : Type} (l : list A) (k : Z) :
  0 <= k -> Py.slice_to l k = firstn (Z.to_nat k) l.
Proof.
  intros H. unfold Py.slice_to.
  destruct (Z.ltb_spec k 0); [lia | reflexivity].
Qed.

(** *** [finished] *)

Lemma finished_true_iff (g : Game) :
  finished g = true <-> threshold g <= moves_played g.
Proof.
  unfold finished, threshold. rewrite orb_true_iff, !Z.leb_le. lia.
Qed.

Lemma finished_false_iff (g : Game) :
  finished g = false <-> moves_played g < threshold g.
Proof.
  rewrite <- not_true_iff_false, finished_true_iff. lia.
Qed.

Lemma threshold_nonneg (g : Game) : 0 <= threshold g.
Proof. unfold threshold, Py.len. nia. Qed.

(** *** [take_next_card] *)

Lemma take_next_card_finished (g : Game) :
  finished g = true -> take_next_card g = (Ok None, g).
Proof. intros H. unfold take_next_card. now rewrite H. Qed.

Lemma take_next_card_running (g : Game) :
  0 <= moves_played g -> finished g = false ->
  exists card,
    nth_error (available_cards g) (Z.to_nat (moves_played g)) = Some card
    /\ Py.getitem (available_cards g) (moves_played g) = Ok card
    /\ take_next_card g =
       (Ok (Some card),
        mkGame (available_cards g) (moves_played g + 1) (players g)).
Proof.
  intros H0 Hfin. unfold take_next_card. rewrite Hfin.
  apply finished_false_iff in Hfin. unfold threshold in Hfin.
  destruct (getitem_in_range (available_cards g) (moves_played g))
    as (card & Hnth & Hget); [lia|].
  exists card. rewrite Hget. auto.
Qed.

(** *** [__str__] *)

Lemma str_snapshot (g : Game) (h : heap) :
  0 <= moves_played g ->
  __str__ g h =
  Ok (snapshot_text
        (firstn (Z.to_nat (moves_played g)) (available_cards g))
        (if finished g then None
         else nth_error (available_cards g) (Z.to_nat (moves_played g)))
        (moves_played g)
        (roster_text (players g) h)).
Proof.
  intros H0. unfold __str__, snapshot_text, roster_text.
  rewrite slice_to_nonneg by assumption.
  destruct (finished g) eqn:Hfin; cbn [bind].
  - f_equal. rewrite !append_assoc. reflexivity.
  - destruct (take_next_card_running g H0 Hfin) as (c & Hnth & Hget & _).
    rewrite Hget, Hnth. cbn [bind]. f_equal.
    rewrite !append_assoc. reflexivity.
Qed.

(** The body of the loop, as one unfolding of [start_loop]. *)
Lemma start_loop_eq (verbose : bool) (w : World) :
  start_loop verbose w =
  if finished (game w) then (Ok tt, w)
  else
    match take_next_card (game w) with
    | (Raise e, g') => (Raise e, mkWorld g' (objects w) (stdout w))
    | (Ok None, g') => (Raise AssertionError, mkWorld g' (objects w) (stdout w))
    | (Ok (Some next_card), g') =>
        match trace verbose g' (objects w) (stdout w) with
        | Raise e => (Raise e, mkWorld g' (objects w) (stdout w))
        | Ok out =>
            start_loop verbose
              (mkWorld g' (broadcast next_card (players g') (objects w)) out)
        end
    end.
Proof.
  funelim (start_loop verbose w); rewrite Hfin; try reflexivity;
    rewrite Htake; try reflexivity.
  all: match goal with
       | Heq : trace _ _ _ _ = _ |- _ => rewrite Heq
       end; reflexivity.
Qed.


(** *** The loop of [start] *)

Lemma skipn_nth_error {A : Type} (l : list A) (n : nat) (x : A) :
  nth_error l n = Some x -> skipn n l = x :: skipn (S n) l.
Proof.
  revert l. induction n as [|n IH]; intros [|y l] H; try discriminate.
  - injection H as ->. reflexivity.
  - simpl in H. apply IH in H. exact H.
Qed.

Lemma remaining_0 (g : Game) :
  remaining g = 0%nat <-> finished g = true.
Proof.
  rewrite finished_true_iff. unfold remaining, threshold. lia.
Qed.

Lemma remaining_drawn_once (g : Game) :
  finished g = false -> remaining g = S (remaining (drawn_once g)).
Proof.
  rewrite finished_false_iff. unfold remaining, threshold, drawn_once.
  simpl. lia.
Qed.

Lemma upcoming_drawn_once (g : Game) (card : Z) :
  0 <= moves_played g -> finished g = false ->
  nth_error (available_cards g) (Z.to_nat (moves_played g)) = Some card ->
  upcoming g = card :: upcoming (drawn_once g).
Proof.
  intros H0 Hfin Hnth. unfold upcoming.
  rewrite (remaining_drawn_once g Hfin).
  rewrite (skipn_nth_error _ _ _ Hnth). simpl.
  replace (Z.to_nat (moves_played g + 1)) with (S (Z.to_nat (moves_played g)))
    by lia.
  reflexivity.
Qed.

Lemma printed_at_0 (g : Game) (h : heap) :
  0 <= moves_played g ->
  __str__ (drawn_once g) h = Ok (printed_at g h 0).
Proof.
  intros H0. rewrite str_snapshot by (simpl; lia).
  unfold printed_at. simpl available_cards. simpl moves_played.
  simpl players. simpl firstn.
  replace (Z.to_nat (moves_played g) + 0 + 1)%nat
    with (Z.to_nat (moves_played g + 1)) by lia.
  rewrite Z2Nat.id by lia.
  replace (finished (drawn_once g))
    with (negb (moves_played g + 1 <? threshold g)).
  - destruct (moves_played g + 1 <? threshold g); reflexivity.
  - destruct (Z.ltb_spec (moves_played g + 1) (threshold g)) as [H|H]; symmetry.
    + apply finished_false_iff. exact H.
    + apply finished_true_iff. exact H.
Qed.

Lemma printed_at_S (g : Game) (h : heap) (card : Z) (k : nat) :
  0 <= moves_played g ->
  upcoming g = card :: upcoming (drawn_once g) ->
  printed_at g h (S k) =
  printed_at (drawn_once g) (broadcast card (players g) h) k.
Proof.
  intros H0 Hup. unfold printed_at. rewrite Hup. simpl.
  replace (Z.to_nat (moves_played g + 1) + k + 1)%nat
    with (Z.to_nat (moves_played g) + S k + 1)%nat by lia.
  reflexivity.
Qed.

(** From a counter that is not negative, the loop ends normally, after
    [remaining] draws; it has sent the [upcoming] cards to the players
    and, when tracing, printed one snapshot per draw. *)
Lemma start_loop_runs (verbose : bool) (n : nat) :
  forall w : World,
    remaining (game w) = n ->
    0 <= moves_played (game w) ->
    start_loop verbose w =
    (Ok tt,
     mkWorld
       (mkGame (available_cards (game w))
               (Z.max (moves_played (game w)) (threshold (game w)))
               (players (game w)))
       (deliver (players (game w)) (upcoming (game w)) (objects w))
       (if verbose
        then stdout w ++ map (printed_at (game w) (objects w)) (seq 0 n)
        else stdout w)).
Proof.
  induction n as [|n IH]; intros [g h out] Hn H0; simpl in Hn, H0;
    rewrite start_loop_eq; simpl game; simpl objects; simpl stdout.
  - pose proof (proj1 (remaining_0 g) Hn) as Hfin. rewrite Hfin.
    unfold upcoming. rewrite Hn. simpl.
    apply finished_true_iff in Hfin.
    rewrite Z.max_l by assumption. rewrite app_nil_r.
    destruct g, verbose; reflexivity.
  - assert (Hfin : finished g = false).
    { apply not_true_iff_false. rewrite <- remaining_0. lia. }
    rewrite Hfin.
    destruct (take_next_card_running g H0 Hfin) as (card & Hnth & _ & Htake).
    rewrite Htake. fold (drawn_once g).
    pose proof (upcoming_drawn_once g card H0 Hfin Hnth) as Hup.
    pose proof (remaining_drawn_once g Hfin) as Hrem.
    assert (Hn' : remaining (drawn_once g) = n) by lia.
    assert (Htr : trace verbose (drawn_once g) h out =
                  Ok (if verbose then out ++ [printed_at g h 0] else out)).
    { unfold trace. destruct verbose; [|reflexivity].
      rewrite printed_at_0 by assumption. reflexivity. }
    rewrite Htr. rewrite IH by (simpl; lia).
    simpl game; simpl objects; simpl stdout.
    apply finished_false_iff in Hfin.
    f_equal. f_equal.
    + unfold threshold. simpl. f_equal. unfold threshold in Hfin. lia.
    + rewrite Hup. reflexivity.
    + destruct verbose; [|reflexivity].
      rewrite <- app_assoc. f_equal. simpl. f_equal.
      rewrite <- seq_shift, map_map.
      apply map_ext. intros k. symmetry.
      apply printed_at_S; assumption.
Qed.


(** Whatever the state, the loop leaves the deck and the roster as they
    are and never moves the counter back. *)
Lemma start_loop_frame (verbose : bool) (n : nat) :
  forall w : World,
    remaining (game w) = n ->
    let w' := snd (start_loop verbose w) in
    available_cards (game w') = available_cards (game w)
    /\ players (game w') = players (game w)
    /\ moves_played (game w) <= moves_played (game w').
Proof.
  induction n as [|n IH]; intros [g h out] Hn; simpl in Hn;
    rewrite start_loop_eq; simpl game; simpl objects; simpl stdout.
  - rewrite (proj1 (remaining_0 g) Hn). simpl. repeat split; lia.
  - assert (Hfin : finished g = false).
    { apply not_true_iff_false. rewrite <- remaining_0. lia. }
    rewrite Hfin. unfold take_next_card. rewrite Hfin.
    destruct (Py.getitem (available_cards g) (moves_played g)) as [card|e].
    + fold (drawn_once g).
      destruct (trace verbose (drawn_once g) h out) as [out'|e].
      * pose proof (remaining_drawn_once g Hfin) as Hrem.
        specialize (IH (mkWorld (drawn_once g)
                          (broadcast card (players (drawn_once g)) h) out')).
        simpl in IH. change (players (drawn_once g)) with (players g).
        destruct IH as (Hc & Hp & Hm); [lia|].
        cbv zeta. rewrite Hc, Hp. repeat split. lia.
      * simpl. repeat split; lia.
    + simpl. repeat split; lia.
Qed.

(** *** Runs of draws *)

Lemma draws_finished (n : nat) (g : Game) :
  finished g = true -> draws n g = (repeat (Ok None) n, g).
Proof.
  intros Hfin. induction n as [|n IH]; simpl; [reflexivity|].
  rewrite (take_next_card_finished g Hfin), IH. reflexivity.
Qed.

Lemma draws_counter (n : nat) :
  forall g : Game,
    0 <= moves_played g ->
    snd (draws n g) =
    mkGame (available_cards g)
           (Z.max (moves_played g)
                  (Z.min (moves_played g + Z.of_nat n) (threshold g)))
           (players g).
Proof.
  induction n as [|n IH]; intros g H0.
  - simpl. destruct g; simpl. f_equal. lia.
  - simpl. destruct (finished g) eqn:Hfin.
    + rewrite (take_next_card_finished g Hfin).
      specialize (IH g H0). destruct (draws n g) as [rs g'']. simpl in *.
      rewrite IH. apply finished_true_iff in Hfin. f_equal. lia.
    + destruct (take_next_card_running g H0 Hfin) as (card & _ & _ & Htake).
      rewrite Htake. fold (drawn_once g).
      specialize (IH (drawn_once g)).
      destruct (draws n (drawn_once g)) as [rs g'']. simpl in *.
      rewrite IH by lia. apply finished_false_iff in Hfin.
      unfold threshold in *. simpl. f_equal. lia.
Qed.

(** *** Runs of registrations *)

Lemma add_player_ok (player : loc) (g : Game) :
  moves_played g = 0 ->
  add_player player g =
  (Ok (Py.len (players g)),
   mkGame (available_cards g) 0 (players g ++ [player])).
Proof.
  intros H. unfold add_player. rewrite H. simpl.
  f_equal. f_equal. unfold Py.len. rewrite length_app. simpl. lia.
Qed.

Lemma add_player_raises (player : loc) (g : Game) :
  moves_played g <> 0 ->
  add_player player g = (Raise (ValueError "Game is in progress"), g).
Proof.
  intros H. unfold add_player.
  destruct (Z.eqb_spec (moves_played g) 0); [contradiction | reflexivity].
Qed.

Lemma add_players_ok (ps : list loc) :
  forall g : Game,
    moves_played g = 0 ->
    add_players ps g =
    (map (fun i => Ok (Py.len (players g) + Z.of_nat i))
         (seq 0 (List.length ps)),
     mkGame (available_cards g) 0 (players g ++ ps)).
Proof.
  induction ps as [|p ps IH]; intros g H.
  - simpl. rewrite app_nil_r. destruct g; simpl in *. now subst.
  - simpl. rewrite (add_player_ok p g H).
    rewrite IH by reflexivity. simpl.
    rewrite <- app_assoc. simpl. f_equal. f_equal.
    + f_equal. lia.
    + rewrite <- seq_shift, map_map. apply map_ext. intros i.
      unfold Py.len. rewrite length_app. simpl. f_equal. lia.
Qed.


(** *** [start] as a whole *)

(** The world that [start] leaves when called on [w]. *)
Lemma start_runs (verbose : bool) (w : World) :
  0 <= moves_played (game w) ->
  start verbose w =
  let w' :=
    mkWorld
      (mkGame (available_cards (game w))
              (Z.max (moves_played (game w)) (threshold (game w)))
              (players (game w)))
      (deliver (players (game w)) (upcoming (game w)) (objects w))
      (if verbose
       then stdout w
            ++ map (printed_at (game w) (objects w))
                   (seq 0 (remaining (game w)))
       else stdout w) in
  (Ok (map (fun player => evaluate (get_board (objects w' player)))
           (players (game w))),
   w').
Proof.
  intros H0. unfold start.
  rewrite (start_loop_runs verbose _ w eq_refl H0). reflexivity.
Qed.

Lemma start_finished (verbose : bool) (w : World) :
  finished (game w) = true ->
  start verbose w =
  (Ok (map (fun player => evaluate (get_board (objects w player)))
           (players (game w))),
   w).
Proof.
  intros Hfin. unfold start. rewrite start_loop_eq, Hfin. reflexivity.
Qed.

(** *** Single calls *)

Lemma call_frame (o : op) (w : World) :
  let w' := snd (call o w) in
  available_cards (game w') = available_cards (game w)
  /\ moves_played (game w) <= moves_played (game w').
Proof.
  destruct o as [| | |p|verbose]; simpl.
  - split; [reflexivity | lia].
  - split; [reflexivity | lia].
  - unfold take_next_card.
    destruct (finished (game w)); simpl; [split; [reflexivity | lia]|].
    destruct (Py.getitem _ _); simpl; split; try reflexivity; lia.
  - unfold add_player.
    destruct (negb _); simpl; split; try reflexivity; lia.
  - pose proof (start_loop_frame verbose _ w eq_refl) as (Hc & _ & Hm).
    unfold start. destruct (start_loop verbose w) as [[u|e] w'];
      simpl in *; split; assumption.
Qed.

Lemma call_counter_range (o : op) (w : World) :
  0 <= moves_played (game w) <= Py.len (available_cards (game w)) ->
  let w' := snd (call o w) in
  0 <= moves_played (game w') <= Py.len (available_cards (game w')).
Proof.
  intros [H0 H1]. destruct o as [| | |p|verbose]; simpl.
  - split; assumption.
  - split; assumption.
  - destruct (finished (game w)) eqn:Hfin.
    + rewrite (take_next_card_finished _ Hfin). simpl. split; assumption.
    + destruct (take_next_card_running _ H0 Hfin) as (card & _ & _ & Htake).
      rewrite Htake. simpl. apply finished_false_iff in Hfin.
      unfold threshold in Hfin. lia.
  - unfold add_player. destruct (negb _); simpl; split; assumption.
  - rewrite (start_runs verbose w H0). simpl.
    unfold threshold. lia.
Qed.

Lemma calls_counter_range (os : list op) :
  forall w : World,
    0 <= moves_played (game w) <= Py.len (available_cards (game w)) ->
    let w' := calls os w in
    0 <= moves_played (game w') <= Py.len (available_cards (game w')).
Proof.
  induction os as [|o os IH]; intros w H; simpl; [exact H|].
  apply IH. apply call_counter_range. exact H.
Qed.

Lemma calls_deck (os : list op) :
  forall w : World,
    available_cards (game (calls os w)) = available_cards (game w).
Proof.
  induction os as [|o os IH]; intros w; simpl; [reflexivity|].
  fold (calls os (snd (call o w))). rewrite IH. apply call_frame.
Qed.

(** With a counter that is not negative, a call raises only when it is a
    registration and the counter is not 0. *)
Lemma call_raises (o : op) (w : World) (e : exn) :
  0 <= moves_played (game w) ->
  fst (call o w) = Some e ->
  exists player,
    o = AddPlayer player
    /\ e = ValueError "Game is in progress"
    /\ moves_played (game w) <> 0.
Proof.
  intros H0. destruct o as [| | |p|verbose]; simpl.
  - discriminate.
  - rewrite str_snapshot by assumption. discriminate.
  - destruct (finished (game w)) eqn:Hfin.
    + rewrite (take_next_card_finished _ Hfin). discriminate.
    + destruct (take_next_card_running _ H0 Hfin) as (card & _ & _ & Htake).
      rewrite Htake. discriminate.
  - destruct (Z.eq_dec (moves_played (game w)) 0) as [Hz|Hz].
    + rewrite (add_player_ok p _ Hz). discriminate.
    + rewrite (add_player_raises p _ Hz). simpl. intros [= <-].
      exists p. auto.
  - rewrite (start_runs verbose w H0). discriminate.
Qed.


(** The assertion of the loop holds in every state: a refused draw
    means [finished]. *)
Lemma take_next_card_none (g g' : Game) :
  take_next_card g = (Ok None, g') -> finished g = true.
Proof.
  unfold take_next_card. destruct (finished g); [reflexivity|].
  destruct (Py.getitem _ _); discriminate.
Qed.

Lemma start_loop_assertion (verbose : bool) (n : nat) :
  forall w : World,
    remaining (game w) = n ->
    fst (start_loop verbose w) <> Raise AssertionError.
Proof.
  induction n as [|n IH]; intros [g h out] Hn; simpl in Hn;
    rewrite start_loop_eq; simpl game; simpl objects; simpl stdout.
  - rewrite (proj1 (remaining_0 g) Hn). discriminate.
  - assert (Hfin : finished g = false).
    { apply not_true_iff_false. rewrite <- remaining_0. lia. }
    rewrite Hfin. unfold take_next_card. rewrite Hfin.
    destruct (Py.getitem (available_cards g) (moves_played g))
      as [card|[msg| |]] eqn:Hget.
    + fold (drawn_once g).
      destruct (trace verbose (drawn_once g) h out) as [out'|e] eqn:Htr.
      * apply IH. simpl. pose proof (remaining_drawn_once g Hfin). lia.
      * unfold trace in Htr. destruct verbose; [|discriminate].
        unfold __str__ in Htr.
        destruct (finished (drawn_once g)); [discriminate|].
        unfold Py.getitem in Htr.
        destruct (_ || _); [injection Htr as <-; discriminate|].
        destruct (nth_error _ _); [discriminate|].
        injection Htr as <-. discriminate.
    + unfold Py.getitem in Hget. destruct (_ || _); [discriminate|].
      destruct (nth_error _ _); discriminate.
    + discriminate.
    + unfold Py.getitem in Hget. destruct (_ || _); [discriminate|].
      destruct (nth_error _ _); discriminate.
Qed.

(** *** What a snapshot depends on *)

Lemma firstn_S_nth_error {A : Type} (l : list A) (n : nat) (x : A) :
  nth_error l n = Some x -> firstn (S n) l = firstn n l ++ [x].
Proof.
  revert l. induction n as [|n IH]; intros [|y l] H; try discriminate.
  - injection H as ->. reflexivity.
  - simpl in H. apply IH in H. simpl in *. rewrite H. reflexivity.
Qed.

Lemma firstn_prefix {A : Type} (l1 l2 : list A) (i j : nat) :
  (i <= j)%nat -> firstn j l1 = firstn j l2 -> firstn i l1 = firstn i l2.
Proof.
  intros Hij H.
  rewrite <- (Nat.min_l i j Hij), <- !firstn_firstn, H. reflexivity.
Qed.

Lemma nth_error_prefix {A : Type} (l1 l2 : list A) (i j : nat) :
  (i < j)%nat -> firstn j l1 = firstn j l2 ->
  nth_error l1 i = nth_error l2 i.
Proof.
  intros Hij H.
  pose proof (nth_error_firstn j l1 i) as H1.
  pose proof (nth_error_firstn j l2 i) as H2.
  apply Nat.ltb_lt in Hij. rewrite Hij in H1, H2.
  rewrite <- H1, <- H2, H. reflexivity.
Qed.

Lemma upcoming_nth (g : Game) (k : nat) :
  0 <= moves_played g -> (k < remaining g)%nat ->
  exists card : Z,
    nth_error (upcoming g) k = Some card
    /\ nth_error (available_cards g) (Z.to_nat (moves_played g) + k)
       = Some card.
Proof.
  intros H0 Hk. unfold upcoming.
  rewrite nth_error_firstn. apply Nat.ltb_lt in Hk as Hk'. rewrite Hk'.
  rewrite nth_error_skipn.
  destruct (nth_error (available_cards g) (Z.to_nat (moves_played g) + k))
    as [card|] eqn:E.
  - exists card. split; reflexivity.
  - apply nth_error_None in E. unfold remaining, Py.len in Hk. lia.
Qed.

Lemma printed_at_prefix (g g2 : Game) (h : heap) (k : nat) :
  players g2 = players g ->
  moves_played g2 = moves_played g ->
  List.length (available_cards g2) = List.length (available_cards g) ->
  (k < remaining g)%nat ->
  firstn (Z.to_nat (moves_played g) + k + 2) (available_cards g2)
    = firstn (Z.to_nat (moves_played g) + k + 2) (available_cards g) ->
  printed_at g2 h k = printed_at g h k.
Proof.
  intros Hp Hm Hlen Hk Hpre.
  assert (Hth : threshold g2 = threshold g).
  { unfold threshold, Py.len. rewrite Hlen. reflexivity. }
  assert (Hrem : remaining g2 = remaining g).
  { unfold remaining. fold (threshold g2). fold (threshold g).
    rewrite Hth, Hm. reflexivity. }
  unfold printed_at. rewrite Hp, Hm, Hth.
  f_equal.
  - eapply firstn_prefix; [|exact Hpre]. lia.
  - destruct (_ <? _); [|reflexivity].
    eapply nth_error_prefix; [|exact Hpre]. lia.
  - f_equal. f_equal. unfold upcoming. rewrite Hrem, Hm.
    rewrite !firstn_firstn, Nat.min_l by lia.
    rewrite !firstn_skipn_comm. f_equal.
    eapply firstn_prefix; [|exact Hpre]. lia.
Qed.

(** *** The new deck *)

Lemma fresh_deck_length : List.length fresh_deck = 52%nat.
Proof. reflexivity. Qed.

Lemma fresh_deck_count (v : Z) :
  count_occ Z.eq_dec fresh_deck v
  = if (1 <=? v) && (v <=? 13) then 4%nat else 0%nat.
Proof.
  destruct (Z.leb_spec 1 v) as [H1|H1];
    [destruct (Z.leb_spec v 13) as [H2|H2]|]; simpl andb.
  - assert (Hv : In v (Py.range 1 14)).
    { unfold Py.range. apply in_map_iff. exists (Z.to_nat (v - 1)).
      split; [lia|]. apply in_seq. simpl. lia. }
    vm_compute in Hv.
    repeat (destruct Hv as [<-|Hv]; [vm_compute; reflexivity|]).
    contradiction.
  - apply count_occ_not_In. intros Hin. vm_compute in Hin.
    repeat (destruct Hin as [Hin|Hin]; [lia|]). contradiction.
  - apply count_occ_not_In. intros Hin. vm_compute in Hin.
    repeat (destruct Hin as [Hin|Hin]; [lia|]). contradiction.
Qed.

(** *** What the players receive *)

Lemma broadcast_other (card : Z) (roster : list loc) :
  forall (h : heap) (p : loc),
    ~ In p roster -> broadcast card roster h p = h p.
Proof.
  unfold broadcast.
  induction roster as [|q roster IH]; intros h p Hp; simpl; [reflexivity|].
  rewrite IH by (intros Hin; apply Hp; right; exact Hin).
  unfold upd. destruct (Nat.eqb_spec p q) as [->|_]; [|reflexivity].
  exfalso. apply Hp. left. reflexivity.
Qed.

Lemma broadcast_once (card : Z) (roster : list loc) :
  forall (h : heap) (p : loc),
    NoDup roster -> In p roster ->
    broadcast card roster h p = move (h p) card.
Proof.
  induction roster as [|q roster IH]; intros h p Hnd Hin; [contradiction|].
  inversion Hnd as [|q' roster' Hq Hnd']; subst.
  change (broadcast card (q :: roster) h)
    with (broadcast card roster (upd h q (move (h q) card))).
  destruct (Nat.eq_dec p q) as [->|Hpq].
  - rewrite broadcast_other by exact Hq.
    unfold upd. rewrite Nat.eqb_refl. reflexivity.
  - destruct Hin as [Hin|Hin]; [congruence|].
    rewrite IH by assumption.
    unfold upd. destruct (Nat.eqb_spec p q); [contradiction | reflexivity].
Qed.

(** A player registered once is sent each card once, in the order of the
    draws; [deliver] does not touch an object that is not in the roster. *)
Lemma deliver_once (roster : list loc) (cards : list Z) :
  forall (h : heap) (p : loc),
    NoDup roster -> In p roster ->
    deliver roster cards h p = fold_left move cards (h p).
Proof.
  unfold deliver.
  induction cards as [|card cards IH]; intros h p Hnd Hin; simpl;
    [reflexivity|].
  rewrite IH by assumption. rewrite broadcast_once by assumption.
  reflexivity.
Qed.

Lemma deliver_other (roster : list loc) (cards : list Z) :
  forall (h : heap) (p : loc),
    ~ In p roster -> deliver roster cards h p = h p.
Proof.
  unfold deliver.
  induction cards as [|card cards IH]; intros h p Hp; simpl; [reflexivity|].
  rewrite IH by assumption. apply broadcast_other. exact Hp.
Qed.

(** ** The termination test *)

(** C1: [finished] returns true exactly when the move counter is at
    least the capacity of the board ([SIZE] squared) or at least the
    length of the deck, that is, at least the minimum of the two.  In a
    run of draws from a game in progress the counter after [n] draws is
    the minimum of the counter plus [n] and that threshold, so [finished]
    becomes true exactly when the counter reaches the threshold; once
    true it stays true under further draws. *)
Theorem finished_exhaustion (g : Game) :
  (finished g = true <->
     SIZE ^ 2 <= moves_played g
     \/ Py.len (available_cards g) <= moves_played g)
  /\ (finished g = true <->
        Z.min (SIZE ^ 2) (Py.len (available_cards g)) <= moves_played g)
  /\ (0 <= moves_played g -> finished g = false ->
      forall n : nat,
        let g' := snd (draws n g) in
        moves_played g' =
          Z.min (moves_played g + Z.of_nat n)
                (Z.min (SIZE ^ 2) (Py.len (available_cards g)))
        /\ (finished g' = true <->
              moves_played g' =
                Z.min (SIZE ^ 2) (Py.len (available_cards g)))
        /\ (finished g' = true <->
              Z.min (SIZE ^ 2) (Py.len (available_cards g))
                <= moves_played g + Z.of_nat n))
  /\ (finished g = true ->
      forall n : nat, finished (snd (draws n g)) = true).
Proof.
  split; [|split; [|split]].
  - unfold finished. rewrite orb_true_iff, !Z.leb_le. reflexivity.
  - apply finished_true_iff.
  - intros H0 Hfin n g'. subst g'. rewrite (draws_counter n g H0).
    rewrite finished_true_iff. apply finished_false_iff in Hfin.
    unfold threshold in *. simpl. lia.
  - intros Hfin n. rewrite (draws_finished n g Hfin). exact Hfin.
Qed.

(** ** Drawing *)

(** C2: when [finished] is true, [take_next_card] returns [None] and
    leaves the game as it is, and so does every further call.  When
    [finished] is false it reads the deck at the index given by the
    counter and, unless that read raises, returns the card read and adds
    exactly 1 to the counter, changing nothing else; with a counter that is
    not negative, as in every game, the read does not raise.  No method
    ever lowers the counter. *)
Theorem take_next_card_spec (g : Game) :
  (finished g = true ->
     take_next_card g = (Ok None, g)
     /\ forall n : nat, draws n g = (repeat (Ok None) n, g))
  /\ (finished g = false ->
      take_next_card g =
        match Py.getitem (available_cards g) (moves_played g) with
        | Ok card =>
            (Ok (Some card),
             mkGame (available_cards g) (moves_played g + 1) (players g))
        | Raise e => (Raise e, g)
        end)
  /\ (0 <= moves_played g -> finished g = false ->
      exists card : Z,
        nth_error (available_cards g) (Z.to_nat (moves_played g)) = Some card
        /\ Py.getitem (available_cards g) (moves_played g) = Ok card
        /\ take_next_card g =
           (Ok (Some card),
            mkGame (available_cards g) (moves_played g + 1) (players g)))
  /\ (forall (o : op) (w : World),
        game w = g ->
        moves_played g <= moves_played (game (snd (call o w)))).
Proof.
  split; [|split; [|split]].
  - intros Hfin. split.
    + apply take_next_card_finished, Hfin.
    + intros n. apply draws_finished, Hfin.
  - intros Hfin. unfold take_next_card. rewrite Hfin.
    destruct (Py.getitem _ _); reflexivity.
  - apply take_next_card_running.
  - intros o w <-. apply call_frame.
Qed.

(** ** Registration *)

(** C3: [add_player] raises [ValueError] exactly when the move counter
    is not 0, and then the game, its roster included, is unchanged; when
    the counter is 0 it appends the player to the roster and returns the
    position of the player in it, counted from 0.  Registrations in a row
    on a game that has drawn no card all succeed and return consecutive
    indices, which on a new game are 0, 1, 2, ... *)
Theorem add_player_spec (player : loc) (g : Game) :
  (fst (add_player player g) = Raise (ValueError "Game is in progress")
     <-> moves_played g <> 0)
  /\ ((exists e : exn, fst (add_player player g) = Raise e)
        <-> moves_played g <> 0)
  /\ (moves_played g <> 0 -> snd (add_player player g) = g)
  /\ (moves_played g = 0 ->
      add_player player g =
        (Ok (Py.len (players g)),
         mkGame (available_cards g) 0 (players g ++ [player]))
      /\ nth_error (players (snd (add_player player g)))
                   (List.length (players g)) = Some player)
  /\ (moves_played g = 0 ->
      forall ps : list loc,
        add_players ps g =
          (map (fun i => Ok (Py.len (players g) + Z.of_nat i))
               (seq 0 (List.length ps)),
           mkGame (available_cards g) 0 (players g ++ ps)))
  /\ (forall (shuffle : list Z -> list Z) (ps : list loc),
        add_players ps (__init__ shuffle) =
          (map (fun i => Ok (Z.of_nat i)) (seq 0 (List.length ps)),
           mkGame (shuffle fresh_deck) 0 ps)).
Proof.
  destruct (Z.eq_dec (moves_played g) 0) as [Hz|Hz].
  - rewrite (add_player_ok player g Hz). simpl.
    repeat split; try congruence; try discriminate.
    + intros [e He]. discriminate.
    + rewrite nth_error_app2, Nat.sub_diag by lia. reflexivity.
    + intros _ ps. apply add_players_ok, Hz.
    + intros shuffle ps.
      rewrite (add_players_ok ps (__init__ shuffle) eq_refl). reflexivity.
  - rewrite (add_player_raises player g Hz). simpl.
    repeat split; try congruence; try contradiction.
    + intros _. eexists. reflexivity.
    + intros shuffle ps.
      rewrite (add_players_ok ps (__init__ shuffle) eq_refl). reflexivity.
Qed.

(** ** Scores *)

(** C4: whenever [start] returns, on a game with N registered players, it
    returns a list of exactly N scores; the score at index [i] is
    [evaluate] applied to the board that [get_board] returns for the
    player registered at index [i]; the roster itself is not changed by
    [start].  With a counter that is not negative, as in every game,
    [start] does return, and the boards it evaluates are those of the
    players after they have been sent every card drawn. *)
Theorem start_scores (verbose : bool) (w : World) :
  (forall (scores : list Score) (w' : World),
     start verbose w = (Ok scores, w') ->
     players (game w') = players (game w)
     /\ List.length scores = List.length (players (game w))
     /\ forall (i : nat) (player : loc),
          nth_error (players (game w)) i = Some player ->
          nth_error scores i =
            Some (evaluate (get_board (objects w' player))))
  /\ (0 <= moves_played (game w) ->
      exists (scores : list Score) (w' : World),
        start verbose w = (Ok scores, w')
        /\ objects w' =
             deliver (players (game w)) (upcoming (game w)) (objects w)).
Proof.
  split.
  - intros scores w' Hstart. unfold start in Hstart.
    pose proof (start_loop_frame verbose _ w eq_refl) as (_ & Hp & _).
    destruct (start_loop verbose w) as [[u|e] w1]; [|discriminate].
    injection Hstart as <- <-. simpl in Hp. rewrite Hp.
    split; [reflexivity|]. split; [apply length_map|].
    intros i player Hi. rewrite nth_error_map, Hi. reflexivity.
  - intros H0. rewrite (start_runs verbose w H0). cbv zeta.
    eexists; eexists. split; reflexivity.
Qed.

(** C9: on a new game with no player registered, [start] returns
    normally, and returns the empty list of scores. *)
Theorem start_without_players (shuffle : list Z -> list Z)
    (verbose : bool) (h : heap) (out : list string) :
  exists w' : World,
    start verbose (mkWorld (__init__ shuffle) h out) = (Ok [], w').
Proof.
  rewrite start_runs by (simpl; lia). cbv zeta. simpl.
  eexists. reflexivity.
Qed.

(** C10: when [finished] already holds, [start] does not enter its loop:
    the game (counter, deck and roster), the players and the console are
    left exactly as they were, and the result is still one score per
    registered player, the evaluation of that player's board.  After any
    [start] (from a counter that is not negative) a second [start]
    returns the same scores and changes nothing. *)
Theorem start_when_finished (verbose : bool) (w : World) :
  (finished (game w) = true ->
     start verbose w =
       (Ok (map (fun player => evaluate (get_board (objects w player)))
                (players (game w))),
        w)
     /\ start_loop verbose w = (Ok tt, w)
     /\ List.length
          (map (fun player => evaluate (get_board (objects w player)))
               (players (game w)))
        = List.length (players (game w)))
  /\ (0 <= moves_played (game w) ->
      forall verbose' : bool,
        finished (game (snd (start verbose w))) = true
        /\ start verbose' (snd (start verbose w)) = start verbose w).
Proof.
  split.
  - intros Hfin. split; [|split].
    + apply start_finished, Hfin.
    + rewrite start_loop_eq, Hfin. reflexivity.
    + apply length_map.
  - intros H0 verbose'.
    assert (Hfin : finished (game (snd (start verbose w))) = true).
    { rewrite (start_runs verbose w H0). simpl.
      apply finished_true_iff. unfold threshold. simpl. lia. }
    split; [exact Hfin|].
    rewrite (start_finished verbose' _ Hfin).
    rewrite (start_runs verbose w H0). reflexivity.
Qed.


(** ** Tracing *)

(** C5, as the code has it: with tracing on, [start] prints one snapshot
    per iteration, after the draw of that iteration and before the
    delivery of its card.  The snapshot of an iteration lists as played
    the cards drawn before it followed by the card it delivers; its
    current card is the next card of the deck, the one that the following
    iteration delivers, or [None] when this is the last iteration; it
    shows no position of the deck beyond that next card: two decks of the
    same length that agree up to it give the same snapshot. *)
Theorem start_trace (w : World) :
  0 <= moves_played (game w) ->
  stdout (snd (start true w)) =
    stdout w
    ++ map (printed_at (game w) (objects w)) (seq 0 (remaining (game w)))
  /\ forall k : nat,
       (k < remaining (game w))%nat ->
       let g := game w in
       let i := (Z.to_nat (moves_played g) + k)%nat in
       exists card : Z,
         nth_error (upcoming g) k = Some card
         /\ nth_error (available_cards g) i = Some card
         /\ printed_at g (objects w) k =
            snapshot_text
              (firstn i (available_cards g) ++ [card])
              (if (S k <? remaining g)%nat
               then nth_error (available_cards g) (S i)
               else None)
              (Z.of_nat (S i))
              (roster_text (players g)
                 (deliver (players g) (firstn k (upcoming g)) (objects w)))
         /\ ((S k < remaining g)%nat ->
             nth_error (upcoming g) (S k)
             = nth_error (available_cards g) (S i))
         /\ forall g2 : Game,
              players g2 = players g ->
              moves_played g2 = moves_played g ->
              List.length (available_cards g2)
                = List.length (available_cards g) ->
              firstn (i + 2) (available_cards g2)
                = firstn (i + 2) (available_cards g) ->
              printed_at g2 (objects w) k = printed_at g (objects w) k.
Proof.
  intros H0. split.
  - rewrite (start_runs true w H0). reflexivity.
  - intros k Hk. cbv zeta.
    destruct (upcoming_nth (game w) k H0 Hk) as (card & Hup & Hnth).
    exists card. split; [exact Hup|]. split; [exact Hnth|].
    split; [|split].
    + unfold printed_at.
      replace (Z.to_nat (moves_played (game w)) + k + 1)%nat
        with (S (Z.to_nat (moves_played (game w)) + k)) by lia.
      rewrite (firstn_S_nth_error _ _ _ Hnth).
      replace (Z.of_nat (S (Z.to_nat (moves_played (game w)) + k))
               <? threshold (game w))
        with (S k <? remaining (game w))%nat; [reflexivity|].
      unfold remaining. fold (threshold (game w)).
      destruct (Nat.ltb_spec (S k)
                  (Z.to_nat (threshold (game w) - moves_played (game w))));
        destruct (Z.ltb_spec
                    (Z.of_nat (S (Z.to_nat (moves_played (game w)) + k)))
                    (threshold (game w)));
        try reflexivity; lia.
    + intros HSk.
      destruct (upcoming_nth (game w) (S k) H0 HSk) as (card' & Hup' & Hnth').
      rewrite Hup', <- Hnth'. f_equal. lia.
    + intros g2 Hp Hm Hlen Hpre.
      apply printed_at_prefix; assumption.
Qed.

(** ** The deck *)

(** C6: the deck of a new game is a permutation of the 52 cards in which
    each of the values 1 to 13 occurs exactly 4 times (given that the
    shuffle returns a permutation of its argument); no method of the
    game changes the deck afterwards. *)
Theorem deck_composition (shuffle : list Z -> list Z) :
  Permutation fresh_deck (shuffle fresh_deck) ->
  let g := __init__ shuffle in
  Permutation fresh_deck (available_cards g)
  /\ List.length (available_cards g) = 52%nat
  /\ (forall v : Z,
        count_occ Z.eq_dec (available_cards g) v
        = if (1 <=? v) && (v <=? 13) then 4%nat else 0%nat)
  /\ (forall (os : list op) (h : heap) (out : list string),
        available_cards (game (calls os (mkWorld g h out)))
        = available_cards g)
  /\ (forall (o : op) (w : World),
        available_cards (game (snd (call o w)))
        = available_cards (game w)).
Proof.
  intros Hperm g. simpl. repeat split.
  - exact Hperm.
  - rewrite <- (Permutation_length Hperm). apply fresh_deck_length.
  - intros v.
    rewrite <- (proj1 (Permutation_count_occ Z.eq_dec _ _) Hperm v).
    apply fresh_deck_count.
  - intros os h out. apply calls_deck.
  - intros o w. apply call_frame.
Qed.

(** ** The counter *)

(** C7: the move counter of a new game is 0; after any sequence of calls
    on a new game it is at least 0 and at most the length of the deck;
    each single call preserves this range. *)
Theorem counter_invariant (shuffle : list Z -> list Z) (h : heap)
    (out : list string) (os : list op) :
  moves_played (__init__ shuffle) = 0
  /\ (let w := calls os (mkWorld (__init__ shuffle) h out) in
      0 <= moves_played (game w) <= Py.len (available_cards (game w)))
  /\ (forall (o : op) (w : World),
        0 <= moves_played (game w) <= Py.len (available_cards (game w)) ->
        let w' := snd (call o w) in
        0 <= moves_played (game w') <= Py.len (available_cards (game w'))).
Proof.
  split; [reflexivity|]. split.
  - apply calls_counter_range. simpl. unfold Py.len. lia.
  - apply call_counter_range.
Qed.

(** ** Errors *)

(** C8: the assertion in the loop of [start] never fails: whenever
    [finished] is false, [take_next_card] does not return [None], and
    with a counter that is not negative it returns a card; so [start]
    returns normally from every such state.  On a game built by
    [__init__] and used through its methods, the only call that raises
    is a registration made when the counter is not 0. *)
Theorem start_never_raises :
  (forall g g' : Game,
     finished g = false -> take_next_card g <> (Ok None, g'))
  /\ (forall (verbose : bool) (w : World),
        fst (start verbose w) <> Raise AssertionError)
  /\ (forall g : Game,
        0 <= moves_played g -> finished g = false ->
        exists card : Z, take_next_card g = (Ok (Some card), drawn_once g))
  /\ (forall (verbose : bool) (w : World),
        0 <= moves_played (game w) ->
        exists (scores : list Score) (w' : World),
          start verbose w = (Ok scores, w'))
  /\ (forall (shuffle : list Z -> list Z) (h : heap) (out : list string)
             (os : list op) (o : op) (e : exn),
        let w := calls os (mkWorld (__init__ shuffle) h out) in
        fst (call o w) = Some e ->
        exists player : loc,
          o = AddPlayer player
          /\ e = ValueError "Game is in progress"
          /\ moves_played (game w) <> 0).
Proof.
  split; [|split; [|split; [|split]]].
  - intros g g' Hfin Htake. apply take_next_card_none in Htake. congruence.
  - intros verbose w. unfold start.
    pose proof (start_loop_assertion verbose _ w eq_refl) as H.
    destruct (start_loop verbose w) as [[u|e] w']; simpl in *;
      [discriminate | intros [= ->]; apply H; reflexivity].
  - intros g H0 Hfin.
    destruct (take_next_card_running g H0 Hfin) as (card & _ & _ & Htake).
    exists card. exact Htake.
  - intros verbose w H0. rewrite (start_runs verbose w H0).
    eexists; eexists. reflexivity.
  - intros shuffle h out os o e w. apply call_raises.
    apply (calls_counter_range os (mkWorld (__init__ shuffle) h out)).
    simpl. unfold Py.len. lia.
Qed.

(** * Further properties of the class *)

(** ** The delivery of the cards *)

Lemma broadcast_count (card : Z) (roster : list loc) :
  forall (h : heap) (p : loc),
    broadcast card roster h p
    = Nat.iter (count_occ Nat.eq_dec roster p) (fun s => move s card) (h p).
Proof.
  induction roster as [|q roster IH]; intros h p; [reflexivity|].
  change (broadcast card (q :: roster) h)
    with (broadcast card roster (upd h q (move (h q) card))).
  rewrite IH. simpl count_occ. unfold upd.
  destruct (Nat.eq_dec q p) as [->|Hqp].
  - rewrite Nat.eqb_refl. rewrite Nat.iter_succ_r. reflexivity.
  - destruct (Nat.eqb_spec p q); [congruence | reflexivity].
Qed.

Lemma deliver_count (roster : list loc) (cards : list Z) :
  forall (h : heap) (p : loc),
    deliver roster cards h p
    = fold_left
        (fun s card =>
           Nat.iter (count_occ Nat.eq_dec roster p) (fun s' => move s' card) s)
        cards (h p).
Proof.
  unfold deliver.
  induction cards as [|card cards IH]; intros h p; simpl; [reflexivity|].
  rewrite IH, broadcast_count. reflexivity.
Qed.

Lemma fold_left_const {A B : Type} (l : list B) (x : A) :
  fold_left (fun s _ => s) l x = x.
Proof. induction l as [|y l IH]; simpl; [reflexivity | exact IH]. Qed.

(** X1: [start] sends every card it draws to every entry of the roster,
    in the order of the draws.  An object registered [k] times is moved
    [k] times for each card ([add_player] does not look for duplicates);
    an object that is not in the roster is left as it was; an object
    registered once has received each card exactly once. *)
Theorem start_delivers (verbose : bool) (w : World) (p : loc) :
  0 <= moves_played (game w) ->
  let roster := players (game w) in
  let after := objects (snd (start verbose w)) p in
  after
  = fold_left
      (fun s card =>
         Nat.iter (count_occ Nat.eq_dec roster p) (fun s' => move s' card) s)
      (upcoming (game w)) (objects w p)
  /\ (~ In p roster -> after = objects w p)
  /\ (count_occ Nat.eq_dec roster p = 1%nat ->
      after = fold_left move (upcoming (game w)) (objects w p)).
Proof.
  intros H0 roster after. subst after roster.
  rewrite (start_runs verbose w H0). cbv zeta. simpl snd. simpl objects.
  rewrite deliver_count. split; [reflexivity|]. split.
  - intros Hp. apply (count_occ_not_In Nat.eq_dec) in Hp. rewrite Hp.
    simpl. apply fold_left_const.
  - intros ->. reflexivity.
Qed.

(** ** Runs of draws, and [start] after them *)

Lemma upcoming_finished (g : Game) : finished g = true -> upcoming g = [].
Proof.
  intros Hfin. unfold upcoming.
  rewrite (proj2 (remaining_0 g) Hfin). reflexivity.
Qed.

Lemma upcoming_length (g : Game) :
  0 <= moves_played g -> List.length (upcoming g) = remaining g.
Proof.
  intros H0. unfold upcoming. rewrite length_firstn, length_skipn.
  unfold remaining, Py.len. lia.
Qed.

Lemma draws_results (n : nat) :
  forall g : Game,
    0 <= moves_played g ->
    fst (draws n g)
    = (map (fun card => Ok (Some card)) (firstn n (upcoming g))
       ++ repeat (Ok None) (n - remaining g))%list.
Proof.
  induction n as [|n IH]; intros g H0; [reflexivity|].
  simpl draws. destruct (finished g) eqn:Hfin.
  - rewrite (take_next_card_finished g Hfin).
    specialize (IH g H0). destruct (draws n g) as [rs g'']. simpl in *.
    rewrite IH, (upcoming_finished g Hfin).
    rewrite (proj2 (remaining_0 g) Hfin), !firstn_nil, Nat.sub_0_r.
    reflexivity.
  - destruct (take_next_card_running g H0 Hfin) as (card & Hnth & _ & Htake).
    rewrite Htake. fold (drawn_once g).
    specialize (IH (drawn_once g)).
    destruct (draws n (drawn_once g)) as [rs g'']. simpl in IH. simpl fst.
    rewrite IH by lia.
    rewrite (upcoming_drawn_once g card H0 Hfin Hnth).
    rewrite (remaining_drawn_once g Hfin). reflexivity.
Qed.

Lemma draws_upcoming (k : nat) :
  forall g : Game,
    0 <= moves_played g ->
    upcoming (snd (draws k g)) = skipn k (upcoming g).
Proof.
  induction k as [|k IH]; intros g H0; [reflexivity|].
  simpl draws. destruct (finished g) eqn:Hfin.
  - rewrite (take_next_card_finished g Hfin).
    specialize (IH g H0). destruct (draws k g) as [rs g'']. simpl in *.
    rewrite IH, (upcoming_finished g Hfin), !skipn_nil. reflexivity.
  - destruct (take_next_card_running g H0 Hfin) as (card & Hnth & _ & Htake).
    rewrite Htake. fold (drawn_once g).
    specialize (IH (drawn_once g)).
    destruct (draws k (drawn_once g)) as [rs g'']. simpl in IH. simpl snd.
    rewrite IH by lia.
    rewrite (upcoming_drawn_once g card H0 Hfin Hnth). reflexivity.
Qed.

(** X2: [n] calls of [take_next_card] in a row return the cards of the
    deck from the position of the counter on, in deck order and without
    gap or repetition, until the game is finished, and [None] from then
    on; the counter has grown by the number of cards returned, and the
    deck and the roster are as before. *)
Theorem draws_in_deck_order (n : nat) (g : Game) :
  0 <= moves_played g ->
  draws n g
  = ((map (fun card => Ok (Some card)) (firstn n (upcoming g))
      ++ repeat (Ok None) (n - remaining g))%list,
     mkGame (available_cards g)
            (moves_played g
             + Z.of_nat (List.length (firstn n (upcoming g))))
            (players g))
  /\ List.length (firstn n (upcoming g)) = Nat.min n (remaining g)
  /\ forall k : nat,
       (k < Nat.min n (remaining g))%nat ->
       nth_error (upcoming g) k
       = nth_error (available_cards g) (Z.to_nat (moves_played g) + k).
Proof.
  intros H0.
  assert (Hlen : List.length (firstn n (upcoming g)) = Nat.min n (remaining g)).
  { rewrite length_firstn, (upcoming_length g H0). reflexivity. }
  split; [|split; [exact Hlen|]].
  - rewrite (surjective_pairing (draws n g)).
    rewrite (draws_results n g H0), (draws_counter n g H0), Hlen.
    f_equal. f_equal. unfold remaining. fold (threshold g). lia.
  - intros k Hk.
    destruct (upcoming_nth g k H0) as (card & -> & ->); [lia | reflexivity].
Qed.

(** X3: [start] draws exactly the cards that [remaining] calls of
    [take_next_card] would return, each of them a card and none of them
    [None], and leaves the game that those calls would leave. *)
Theorem start_is_draws (verbose : bool) (w : World) :
  0 <= moves_played (game w) ->
  let n := remaining (game w) in
  game (snd (start verbose w)) = snd (draws n (game w))
  /\ fst (draws n (game w))
     = map (fun card => Ok (Some card)) (upcoming (game w))
  /\ objects (snd (start verbose w))
     = deliver (players (game w)) (upcoming (game w)) (objects w).
Proof.
  intros H0 n. subst n.
  rewrite (start_runs verbose w H0). cbv zeta. simpl snd. simpl game.
  simpl objects. split; [|split; [|reflexivity]].
  - rewrite (draws_counter _ _ H0). f_equal.
    unfold remaining. fold (threshold (game w)). lia.
  - rewrite (draws_results _ _ H0), Nat.sub_diag. simpl repeat.
    rewrite app_nil_r. f_equal. apply firstn_all2.
    rewrite (upcoming_length _ H0). lia.
Qed.

(** X4: cards taken with [take_next_card] before [start] is called are
    never sent to the players: after [k] such calls, [start] delivers the
    cards that were to come, less the first [k]. *)
Theorem start_after_draws (verbose : bool) (k : nat) (g : Game) (h : heap)
    (out : list string) :
  0 <= moves_played g ->
  objects (snd (start verbose (mkWorld (snd (draws k g)) h out)))
  = deliver (players g) (skipn k (upcoming g)) h.
Proof.
  intros H0.
  assert (Hg : snd (draws k g)
               = mkGame (available_cards g)
                   (Z.max (moves_played g)
                      (Z.min (moves_played g + Z.of_nat k) (threshold g)))
                   (players g))
    by (apply draws_counter; exact H0).
  rewrite start_runs by (simpl game; rewrite Hg; simpl; lia).
  cbv zeta. simpl snd. simpl objects. simpl game.
  rewrite (draws_upcoming k g H0). rewrite Hg. reflexivity.
Qed.

(** ** The snapshot and the next draw *)

(** X5: on a game whose counter is not negative, [__str__] returns
    normally, and the current card it shows is exactly what the next
    [take_next_card] returns: that card, or [None] when the game is
    finished; the cards it lists as played are the deck before the
    counter. *)
Theorem str_shows_next_draw (g : Game) (h : heap) :
  0 <= moves_played g ->
  exists next : option Z,
    fst (take_next_card g) = Ok next
    /\ __str__ g h
       = Ok (snapshot_text
               (firstn (Z.to_nat (moves_played g)) (available_cards g))
               next (moves_played g) (roster_text (players g) h)).
Proof.
  intros H0. rewrite (str_snapshot g h H0).
  destruct (finished g) eqn:Hfin.
  - exists None. rewrite (take_next_card_finished g Hfin).
    split; reflexivity.
  - destruct (take_next_card_running g H0 Hfin) as (card & Hnth & _ & Htake).
    exists (Some card). rewrite Htake, Hnth. split; reflexivity.
Qed.

(** ** Tracing changes nothing but the console *)

(** X6: [start] with and without tracing returns the same scores and
    leaves the same game and the same players; without tracing it prints
    nothing, with tracing it prints one snapshot per card drawn. *)
Theorem verbose_only_prints (w : World) :
  0 <= moves_played (game w) ->
  fst (start true w) = fst (start false w)
  /\ game (snd (start true w)) = game (snd (start false w))
  /\ objects (snd (start true w)) = objects (snd (start false w))
  /\ stdout (snd (start false w)) = stdout w
  /\ List.length (stdout (snd (start true w)))
     = (List.length (stdout w) + List.length (upcoming (game w)))%nat.
Proof.
  intros H0. rewrite !(start_runs _ w H0). cbv zeta. simpl.
  repeat split.
  rewrite length_app, length_map, length_seq, (upcoming_length _ H0).
  reflexivity.
Qed.

(** ** The roster *)



(** ** Registration and the scores *)

(** X8: the index that [add_player] returns is the index of that player's
    score in the list that [start] returns, whatever players are
    registered after it. *)
Theorem registration_index_scores (verbose : bool) (player : loc)
    (ps : list loc) (g : Game) (h : heap) (out : list string) :
  moves_played g = 0 ->
  exists (idx : Z) (g1 : Game) (scores : list Score) (w' : World),
    add_player player g = (Ok idx, g1)
    /\ start verbose (mkWorld (snd (add_players ps g1)) h out)
       = (Ok scores, w')
    /\ 0 <= idx
    /\ nth_error scores (Z.to_nat idx)
       = Some (evaluate (get_board (objects w' player))).
Proof.
  intros Hz. rewrite (add_player_ok player g Hz).
  set (g1 := mkGame (available_cards g) 0 (players g ++ [player])).
  pose proof (add_players_ok ps g1 eq_refl) as Hg2.
  assert (Hstart := start_runs verbose
                      (mkWorld (snd (add_players ps g1)) h out)).
  simpl game in Hstart. rewrite Hg2 in Hstart. simpl snd in Hstart.
  specialize (Hstart (Z.le_refl 0)). cbv zeta in Hstart.
  exists (Py.len (players g)), g1. eexists; eexists.
  split; [reflexivity|]. split; [rewrite Hg2; exact Hstart|].
  split; [unfold Py.len; lia|].
  rewrite nth_error_map. simpl players.
  unfold Py.len. rewrite Nat2Z.id, <- app_assoc.
  rewrite nth_error_app2, Nat.sub_diag by lia. reflexivity.
Qed.

(** X9: after [start], registration is refused, except on a game that
    could not draw any card: [add_player] raises after [start] exactly
    when a card had been drawn before, or the board has a side other than
    0 and the deck is not empty. *)
Theorem registration_after_start (verbose : bool) (player : loc)
    (w : World) :
  0 <= moves_played (game w) ->
  let g' := game (snd (start verbose w)) in
  (fst (add_player player g') = Raise (ValueError "Game is in progress")
   <-> 0 < moves_played (game w)
       \/ (SIZE <> 0 /\ available_cards (game w) <> []))
  /\ (moves_played (game w) = 0 ->
      SIZE = 0 \/ available_cards (game w) = [] ->
      add_player player g'
      = (Ok (Py.len (players (game w))),
         mkGame (available_cards (game w)) 0
                (players (game w) ++ [player]))).
Proof.
  intros H0 g'. subst g'. rewrite (start_runs verbose w H0). cbv zeta.
  simpl snd. simpl game.
  set (g' := mkGame _ _ _).
  assert (Hth : 0 < threshold (game w)
                <-> SIZE <> 0 /\ available_cards (game w) <> []).
  { unfold threshold, Py.len.
    destruct (available_cards (game w)) as [|c cs]; simpl List.length.
    - split; [lia | intros [_ H]; congruence].
    - split; [intros H; split; [nia | discriminate] | intros [H _]; nia]. }
  pose proof (threshold_nonneg (game w)) as Hnn.
  split.
  - destruct (Z.eq_dec (moves_played g') 0) as [Hz|Hz].
    + rewrite (add_player_ok player g' Hz). simpl fst.
      split; [discriminate|]. rewrite <- Hth. subst g'. simpl in Hz. lia.
    + rewrite (add_player_raises player g' Hz). simpl fst.
      split; [|reflexivity]. intros _. rewrite <- Hth.
      subst g'. simpl in Hz. lia.
  - intros Hz Hempty.
    assert (Ht0 : threshold (game w) = 0).
    { destruct (Z.eq_dec (threshold (game w)) 0) as [E|E]; [exact E|].
      assert (Hpos : 0 < threshold (game w)) by lia.
      apply Hth in Hpos. destruct Hpos, Hempty; contradiction. }
    rewrite add_player_ok by (subst g'; simpl; lia). reflexivity.
Qed.

(** ** A counter outside the deck *)

Lemma getitem_cases {A : Type} (l : list A) (i : Z) :
  i < Py.len l ->
  (i < - Py.len l /\ Py.getitem l i = Raise IndexError)
  \/ (- Py.len l <= i
      /\ exists x : A,
           Py.getitem l i = Ok x
           /\ nth_error l (Z.to_nat (if i <? 0 then i + Py.len l else i))
              = Some x).
Proof.
  intros Hi. unfold Py.getitem.
  set (j := if i <? 0 then i + Py.len l else i).
  assert (Hj : j < Py.len l /\ (j < 0 <-> i < - Py.len l)).
  { subst j. unfold Py.len in *. destruct (Z.ltb_spec i 0); lia. }
  destruct Hj as (Hj1 & Hj2).
  destruct (Z.ltb_spec j 0) as [Hneg|Hpos]; simpl orb.
  - left. split; [apply Hj2; exact Hneg | reflexivity].
  - right. split; [lia|].
    destruct (Z.leb_spec (Py.len l) j) as [?|_]; [lia|].
    destruct (nth_error l (Z.to_nat j)) as [x|] eqn:E.
    + exists x. split; reflexivity.
    + apply nth_error_None in E. unfold Py.len in Hj1. lia.
Qed.

(** X10: the methods index the deck with the counter as Python does.
    [take_next_card] and [__str__] raise [IndexError] exactly when the
    counter is below minus the length of the deck, and [take_next_card]
    then leaves the game as it was; it raises nothing else.  With a
    negative counter inside that bound the game is not finished and the
    draw reads the deck from its end. *)
Theorem counter_outside_deck (g : Game) (h : heap) :
  (fst (take_next_card g) = Raise IndexError
   <-> moves_played g < - Py.len (available_cards g))
  /\ (forall e : exn,
        fst (take_next_card g) = Raise e ->
        e = IndexError /\ snd (take_next_card g) = g)
  /\ (__str__ g h = Raise IndexError
      <-> moves_played g < - Py.len (available_cards g))
  /\ (- Py.len (available_cards g) <= moves_played g < 0 ->
      exists card : Z,
        nth_error (available_cards g)
          (Z.to_nat (moves_played g + Py.len (available_cards g)))
        = Some card
        /\ take_next_card g = (Ok (Some card), drawn_once g)).
Proof.
  pose proof (threshold_nonneg g) as Hnn.
  assert (Hlen : 0 <= Py.len (available_cards g)) by (unfold Py.len; lia).
  unfold take_next_card, __str__.
  destruct (finished g) eqn:Hfin.
  - apply finished_true_iff in Hfin.
    repeat split; simpl; try discriminate; try lia.
  - apply finished_false_iff in Hfin.
    assert (Hlt : moves_played g < Py.len (available_cards g))
      by (unfold threshold in Hfin; lia).
    destruct (getitem_cases (available_cards g) (moves_played g) Hlt)
      as [(Hlow & Hget)|(Hin & card & Hget & Hnth)]; rewrite Hget; simpl.
    + repeat split; try reflexivity; try lia; try congruence.
    + repeat split; try discriminate; try lia.
      intros Hneg. exists card. split; [|reflexivity].
      destruct (Z.ltb_spec (moves_played g) 0); [exact Hnth | lia].
Qed.

(** ** A whole game *)

(** X11: on a new game with any players registered, [start] draws the
    first min([SIZE] squared, 52) cards of the shuffled deck and stops
    there, with the roster as registered; when the board has at least 52
    cells, the cards drawn are the whole deck. *)
Theorem new_game_run (shuffle : list Z -> list Z) (ps : list loc)
    (verbose : bool) (h : heap) (out : list string) :
  Permutation fresh_deck (shuffle fresh_deck) ->
  let g := snd (add_players ps (__init__ shuffle)) in
  let w' := snd (start verbose (mkWorld g h out)) in
  moves_played (game w') = Z.min (SIZE ^ 2) 52
  /\ upcoming g
     = firstn (Z.to_nat (Z.min (SIZE ^ 2) 52)) (shuffle fresh_deck)
  /\ players (game w') = ps
  /\ objects w' = deliver ps (upcoming g) h
  /\ (52 <= SIZE ^ 2 -> upcoming g = shuffle fresh_deck).
Proof.
  intros Hperm g w'.
  assert (Hlen : List.length (shuffle fresh_deck) = 52%nat).
  { rewrite <- (Permutation_length Hperm). apply fresh_deck_length. }
  assert (Hg : g = mkGame (shuffle fresh_deck) 0 ps).
  { subst g. rewrite (add_players_ok ps (__init__ shuffle) eq_refl).
    reflexivity. }
  assert (Hth : threshold g = Z.min (SIZE ^ 2) 52).
  { rewrite Hg. unfold threshold, Py.len. simpl. rewrite Hlen. reflexivity. }
  assert (Hup : upcoming g
                = firstn (Z.to_nat (Z.min (SIZE ^ 2) 52)) (shuffle fresh_deck)).
  { unfold upcoming, remaining. fold (threshold g). rewrite Hth, Hg. simpl.
    rewrite Z.sub_0_r. reflexivity. }
  subst w'. rewrite start_runs by (rewrite Hg; simpl; lia).
  cbv zeta. simpl. rewrite Hth.
  split; [rewrite Hg; simpl; nia|]. split; [exact Hup|].
  split; [rewrite Hg; reflexivity|]. split; [rewrite Hg; reflexivity|].
  intros Hbig. rewrite Hup. apply firstn_all2. lia.
Qed.

End Properties.

(** * The properties at concrete games *)

Lemma finished_exhaustion_witness :
  0 <= moves_played demo_game
  /\ @finished demo demo_game = false
  /\ moves_played (snd (@draws demo 2 demo_game)) = 2
  /\ @finished demo (snd (@draws demo 2 demo_game)) = false
  /\ moves_played (snd (@draws demo 5 demo_game)) = 3
  /\ @finished demo (snd (@draws demo 5 demo_game)) = true.
Proof.
  assert (H0 : 0 <= moves_played demo_game) by (simpl; lia).
  assert (Hf : @finished demo demo_game = false) by reflexivity.
  destruct (@finished_exhaustion demo demo_game) as (_ & _ & Hrun & _).
  destruct (Hrun H0 Hf 2%nat) as (Hc2 & _ & Hn2).
  destruct (Hrun H0 Hf 5%nat) as (Hc5 & _ & Hn5).
  split; [exact H0|]. split; [exact Hf|].
  split; [rewrite Hc2; reflexivity|].
  split; [reflexivity|].
  split; [rewrite Hc5; reflexivity|].
  apply Hn5. vm_compute. discriminate.
Defined.

Lemma take_next_card_spec_witness :
  (0 <= moves_played demo_game
   /\ @finished demo demo_game = false
   /\ @take_next_card demo demo_game
      = (Ok (Some 3), mkGame [3; 1; 2] 1 [0%nat; 1%nat]))
  /\ (@finished demo demo_game_over = true
      /\ @draws demo 4 demo_game_over
         = (repeat (Ok None) 4, demo_game_over)).
Proof.
  assert (H0 : 0 <= moves_played demo_game) by (simpl; lia).
  assert (Hf : @finished demo demo_game = false) by reflexivity.
  assert (Ht : @finished demo demo_game_over = true) by reflexivity.
  destruct (@take_next_card_spec demo demo_game) as (_ & _ & Hrun & _).
  destruct (@take_next_card_spec demo demo_game_over) as (Hover & _).
  destruct (Hrun H0 Hf) as (card & Hnth & _ & Htake).
  destruct (Hover Ht) as (_ & Hdraws).
  split.
  - split; [exact H0|]. split; [exact Hf|].
    rewrite Htake. simpl in Hnth. injection Hnth as <-. reflexivity.
  - split; [exact Ht | apply Hdraws].
Defined.

Lemma add_player_spec_witness :
  (moves_played demo_game = 0
   /\ add_player 7%nat demo_game
      = (Ok 2, mkGame [3; 1; 2] 0 [0%nat; 1%nat; 7%nat]))
  /\ (moves_played demo_game_over <> 0
      /\ snd (add_player 7%nat demo_game_over) = demo_game_over).
Proof.
  assert (H0 : moves_played demo_game = 0) by reflexivity.
  assert (H3 : moves_played demo_game_over <> 0) by (simpl; lia).
  destruct (add_player_spec 7%nat demo_game) as (_ & _ & _ & Hok & _).
  destruct (add_player_spec 7%nat demo_game_over)
    as (_ & _ & Herr & _).
  split.
  - split; [exact H0|]. destruct (Hok H0) as [-> _]. reflexivity.
  - split; [exact H3 | exact (Herr H3)].
Defined.

Lemma start_scores_witness :
  0 <= moves_played (game demo_full_world)
  /\ exists w' : @World demo,
       @start demo false demo_full_world = (Ok [259; 259], w')
       /\ moves_played (game w') = 25
       /\ objects w' 0%nat = objects w' 1%nat
       /\ players (game w') = [0%nat; 1%nat].
Proof.
  assert (H0 : 0 <= moves_played (game demo_full_world)) by (simpl; lia).
  destruct (@start_scores demo false demo_full_world) as (Hall & Hruns).
  destruct (Hruns H0) as (scores & w' & Hstart & _).
  destruct (Hall scores w' Hstart) as (Hp & _).
  split; [exact H0|].
  exists w'. rewrite Hp.
  assert (E : (Ok scores, w') = @start demo false demo_full_world)
    by (symmetry; exact Hstart).
  vm_compute in E. injection E as -> ->.
  repeat split.
Defined.

Lemma start_trace_witness :
  0 <= moves_played (game demo_world)
  /\ List.length (stdout (snd (@start demo true demo_world))) = 3%nat
  /\ @printed_at demo demo_game (fun _ => []) 0
     = snapshot_text [3] (Some 1) 1 "[P0, P1]".
Proof.
  assert (H0 : 0 <= moves_played (game demo_world)) by (simpl; lia).
  destruct (@start_trace demo demo_world H0) as (Hout & Hsnap).
  split; [exact H0|]. split.
  - rewrite Hout. reflexivity.
  - assert (Hk : (0 < @remaining demo (game demo_world))%nat)
      by (vm_compute; lia).
    destruct (Hsnap 0%nat Hk) as (card & _ & Hnth & Hp & _).
    vm_compute in Hnth. injection Hnth as <-.
    unfold demo_world in Hp. simpl game in Hp. simpl objects in Hp.
    rewrite Hp. reflexivity.
Defined.

Lemma deck_composition_witness :
  Permutation fresh_deck (rev fresh_deck)
  /\ count_occ Z.eq_dec (available_cards (__init__ (@rev Z))) 7 = 4%nat
  /\ count_occ Z.eq_dec (available_cards (__init__ (@rev Z))) 14 = 0%nat.
Proof.
  assert (Hp : Permutation fresh_deck (rev fresh_deck))
    by apply Permutation_rev.
  destruct (@deck_composition demo (@rev Z) Hp) as (_ & _ & Hcount & _).
  split; [exact Hp|]. split; [exact (Hcount 7) | exact (Hcount 14)].
Defined.

Lemma counter_invariant_witness :
  (0 <= moves_played (game demo_world)
     <= Py.len (available_cards (game demo_world)))
  /\ (0 <= moves_played (game (snd (@call demo TakeNextCard demo_world)))
        <= Py.len (available_cards
                     (game (snd (@call demo TakeNextCard demo_world))))).
Proof.
  assert (H : 0 <= moves_played (game demo_world)
                <= Py.len (available_cards (game demo_world)))
    by (vm_compute; split; discriminate).
  destruct (@counter_invariant demo (@rev Z) (fun _ => []) [] [])
    as (_ & _ & Hstep).
  split; [exact H | exact (Hstep TakeNextCard demo_world H)].
Defined.

Lemma start_never_raises_witness :
  0 <= moves_played (game demo_world)
  /\ @finished demo demo_game = false
  /\ (exists card : Z,
        @take_next_card demo demo_game
        = (Ok (Some card), drawn_once demo_game))
  /\ (exists (scores : list Z) (w' : @World demo),
        @start demo true demo_world = (Ok scores, w')).
Proof.
  assert (H0 : 0 <= moves_played (game demo_world)) by (simpl; lia).
  assert (Hf : @finished demo demo_game = false) by reflexivity.
  destruct (@start_never_raises demo) as (_ & _ & Hcard & Hstart & _).
  split; [exact H0|]. split; [exact Hf|]. split.
  - exact (Hcard demo_game H0 Hf).
  - exact (Hstart true demo_world H0).
Defined.

Lemma start_when_finished_witness :
  let w := @mkWorld demo demo_game_over (fun _ => [4; 5]) [] in
  @finished demo (game w) = true
  /\ @start demo true w = (Ok [9; 9], w).
Proof.
  intros w.
  assert (Hf : @finished demo (game w) = true) by reflexivity.
  destruct (@start_when_finished demo true w) as (Hfin & _).
  destruct (Hfin Hf) as (Hstart & _).
  split; [exact Hf | exact Hstart].
Defined.

(** ** The further properties at concrete games *)

Lemma start_delivers_witness :
  let w := @mkWorld demo (mkGame [3; 1; 2] 0 [0%nat; 1%nat; 0%nat])
             (fun _ => []) [] in
  0 <= moves_played (game w)
  /\ objects (snd (@start demo true w)) 0%nat = [3; 3; 1; 1; 2; 2]
  /\ objects (snd (@start demo true w)) 1%nat = [3; 1; 2]
  /\ objects (snd (@start demo true w)) 2%nat = [].
Proof.
  intros w.
  assert (H0 : 0 <= moves_played (game w)) by (simpl; lia).
  destruct (@start_delivers demo true w 0%nat H0) as (Htwice & _).
  destruct (@start_delivers demo true w 1%nat H0) as (_ & _ & Honce).
  destruct (@start_delivers demo true w 2%nat H0) as (_ & Hout & _).
  split; [exact H0|]. split; [rewrite Htwice; reflexivity|].
  split; [rewrite (Honce eq_refl); reflexivity|].
  rewrite Hout; [reflexivity|].
  simpl. intros [H|[H|[H|H]]]; try discriminate H; exact H.
Defined.

Lemma draws_in_deck_order_witness :
  0 <= moves_played demo_game
  /\ @draws demo 5 demo_game
     = ([Ok (Some 3); Ok (Some 1); Ok (Some 2); Ok None; Ok None],
        mkGame [3; 1; 2] 3 [0%nat; 1%nat]).
Proof.
  assert (H0 : 0 <= moves_played demo_game) by (simpl; lia).
  destruct (@draws_in_deck_order demo 5 demo_game H0) as (Hdraws & _).
  split; [exact H0|]. rewrite Hdraws. reflexivity.
Defined.

Lemma start_is_draws_witness :
  0 <= moves_played (game demo_world)
  /\ game (snd (@start demo false demo_world))
     = snd (@draws demo 3 demo_game)
  /\ fst (@draws demo 3 demo_game) = [Ok (Some 3); Ok (Some 1); Ok (Some 2)].
Proof.
  assert (H0 : 0 <= moves_played (game demo_world)) by (simpl; lia).
  destruct (@start_is_draws demo false demo_world H0) as (Hgame & Hcards & _).
  split; [exact H0|]. split; [exact Hgame | exact Hcards].
Defined.

Lemma start_after_draws_witness :
  0 <= moves_played demo_game
  /\ objects
       (snd (@start demo false
               (@mkWorld demo (snd (@draws demo 1 demo_game))
                  (fun _ => []) []))) 0%nat
     = [1; 2].
Proof.
  assert (H0 : 0 <= moves_played demo_game) by (simpl; lia).
  split; [exact H0|].
  rewrite (@start_after_draws demo false 1 demo_game (fun _ => []) [] H0).
  reflexivity.
Defined.

Lemma str_shows_next_draw_witness :
  0 <= moves_played demo_game
  /\ fst (@take_next_card demo demo_game) = Ok (Some 3)
  /\ @__str__ demo demo_game (fun _ => [])
     = Ok (snapshot_text [] (Some 3) 0 "[P0, P1]").
Proof.
  assert (H0 : 0 <= moves_played demo_game) by (simpl; lia).
  destruct (@str_shows_next_draw demo demo_game (fun _ => []) H0)
    as (next & Hnext & Hstr).
  split; [exact H0|]. split; [reflexivity|].
  rewrite Hstr. vm_compute in Hnext. injection Hnext as <-. reflexivity.
Defined.

Lemma verbose_only_prints_witness :
  0 <= moves_played (game demo_world)
  /\ fst (@start demo true demo_world) = fst (@start demo false demo_world)
  /\ stdout (snd (@start demo false demo_world)) = []
  /\ List.length (stdout (snd (@start demo true demo_world))) = 3%nat.
Proof.
  assert (H0 : 0 <= moves_played (game demo_world)) by (simpl; lia).
  destruct (@verbose_only_prints demo demo_world H0)
    as (Hsame & _ & _ & Hquiet & Hlines).
  split; [exact H0|]. split; [exact Hsame|]. split; [exact Hquiet|].
  rewrite Hlines. reflexivity.
Defined.


Lemma registration_index_scores_witness :
  let g := mkGame [3; 1; 2] 0 [0%nat] in
  let h : @heap demo := fun p => [10 * Z.of_nat p] in
  moves_played g = 0
  /\ exists (idx : Z) (g1 : Game) (scores : list Z) (w' : @World demo),
       add_player 1%nat g = (Ok idx, g1)
       /\ @start demo false (@mkWorld demo (snd (add_players [2%nat] g1)) h [])
          = (Ok scores, w')
       /\ 0 <= idx
       /\ nth_error scores (Z.to_nat idx)
          = Some (@evaluate demo (@get_board demo (objects w' 1%nat))).
Proof.
  intros g h.
  assert (H0 : moves_played g = 0) by reflexivity.
  split; [exact H0|].
  exact (@registration_index_scores demo false 1%nat [2%nat] g h [] H0).
Defined.

Lemma registration_after_start_witness :
  let empty := @mkWorld demo (mkGame [] 0 []) (fun _ => []) [] in
  0 <= moves_played (game demo_world)
  /\ fst (add_player 7%nat (game (snd (@start demo false demo_world))))
     = Raise (ValueError "Game is in progress")
  /\ add_player 7%nat (game (snd (@start demo false empty)))
     = (Ok 0, mkGame [] 0 [7%nat]).
Proof.
  intros empty.
  assert (H0 : 0 <= moves_played (game demo_world)) by (simpl; lia).
  assert (He : 0 <= moves_played (game empty)) by (simpl; lia).
  destruct (@registration_after_start demo false 7%nat demo_world H0)
    as (Hiff & _).
  destruct (@registration_after_start demo false 7%nat empty He)
    as (_ & Hok).
  split; [exact H0|]. split.
  - apply Hiff. right. split; discriminate.
  - apply Hok; [reflexivity | right; reflexivity].
Defined.

Lemma counter_outside_deck_witness :
  let before_end := mkGame [3; 1; 2] (-1) [] in
  let outside := mkGame [3; 1; 2] (-4) [] in
  (- Py.len (available_cards before_end) <= moves_played before_end < 0
   /\ @take_next_card demo before_end = (Ok (Some 2), mkGame [3; 1; 2] 0 []))
  /\ (moves_played outside < - Py.len (available_cards outside)
      /\ @take_next_card demo outside = (Raise IndexError, outside)).
Proof.
  intros before_end outside.
  assert (Hin : - Py.len (available_cards before_end)
                <= moves_played before_end < 0)
    by (vm_compute; split; [discriminate | reflexivity]).
  assert (Hout : moves_played outside < - Py.len (available_cards outside))
    by (vm_compute; reflexivity).
  destruct (@counter_outside_deck demo before_end (fun _ => []))
    as (_ & _ & _ & Hread).
  destruct (@counter_outside_deck demo outside (fun _ => []))
    as (Hraise & Hsame & _).
  split.
  - split; [exact Hin|].
    destruct (Hread Hin) as (card & Hnth & Htake).
    rewrite Htake. vm_compute in Hnth. injection Hnth as <-. reflexivity.
  - split; [exact Hout|].
    apply Hraise in Hout.
    destruct (Hsame IndexError Hout) as (_ & Hg).
    rewrite (surjective_pairing (@take_next_card demo outside)).
    rewrite Hout, Hg. reflexivity.
Defined.

Lemma new_game_run_witness :
  Permutation fresh_deck (rev fresh_deck)
  /\ moves_played
       (game (snd (@start demo false
                     (@mkWorld demo
                        (snd (add_players [0%nat; 1%nat] (__init__ (@rev Z))))
                        (fun _ => []) []))))
     = 25.
Proof.
  assert (Hp : Permutation fresh_deck (rev fresh_deck))
    by apply Permutation_rev.
  destruct (@new_game_run demo (@rev Z) [0%nat; 1%nat] false
              (fun _ => []) [] Hp) as (Hcount & _).
  split; [exact Hp|]. rewrite Hcount. reflexivity.
Defined.

(** C5, as the claim has it, fails.  One player, the deck 3, 1, 2: the
    first iteration delivers the card 3 (the player's board ends as
    3, 1, 2).  The snapshot printed in that iteration lists 3 as already
    played and shows 1 as the current card; it is not a snapshot that lists
    no card as played and shows 3 as current.  The card it shows, 1, lies
    in the deck after the card being delivered: with 9 in that position
    the first snapshot is another one. *)
Lemma snapshot_shows_next_card :
  let w := @mkWorld demo (mkGame [3; 1; 2] 0 [0%nat]) (fun _ => []) [] in
  let w2 := @mkWorld demo (mkGame [3; 9; 2] 0 [0%nat]) (fun _ => []) [] in
  let w' := snd (@start demo true w) in
  nth_error (@upcoming demo (game w)) 0 = Some 3
  /\ objects w' 0%nat = [3; 1; 2]
  /\ (exists (line : string) (rest : list string),
        stdout w' = line :: rest
        /\ line = snapshot_text [3] (Some 1) 1 "[P0]"
        /\ ~ (exists (number : Z) (roster : string),
                line = snapshot_text [] (Some 3) number roster))
  /\ firstn 1 (available_cards (game w2)) = firstn 1 (available_cards (game w))
  /\ nth_error (stdout (snd (@start demo true w2))) 0
     <> nth_error (stdout w') 0.
Proof.
  intros w w2 w'.
  split; [reflexivity|]. split; [reflexivity|]. split; [|split].
  - eexists. eexists. split; [vm_compute; reflexivity|].
    split; [vm_compute; reflexivity|].
    intros (number & roster & H).
    unfold snapshot_text in H. cbn in H. discriminate H.
  - reflexivity.
  - vm_compute. discriminate.
Qed.
